(** * SnipsPlayer: the music player wrapper of snips-action-music

    A shallow embedding of [src/SnipsPlayer.ts].  The class wraps an
    [mpc-js] client ([MPC]); every method issues calls on that client and
    chains the promises they return.  The embedding keeps

    - the instance fields of the class as a record,
    - the client as an opaque object whose answers are not controlled by
      the adapter (it may fulfil or reject every call),
    - the calls issued on the client, in order, as a trace,
    - promises as a state-and-outcome monad: [then_] runs its callback
      only after fulfilment, [catch_] only after rejection. *)

From Stdlib Require Import String Ascii ZArith List Bool Arith Lia.
Import ListNotations.
Local Open Scope string_scope.
Local Open Scope list_scope.

(** ** JavaScript primitives the class relies on *)

Module JS.

(** Truthiness of a string: only the empty string is falsy. *)
Definition truthy_string (s : string) : bool :=
  match s with
  | EmptyString => false
  | String _ _ => true
  end.

(** Truthiness of a number.  The numeric fields of the class (port,
    volume levels) are integers, so numbers are modelled as [Z]; the only
    falsy integer is zero. *)
Definition truthy_number (n : Z) : bool := negb (Z.eqb n 0).

Definition truthy_boolean (b : bool) : bool := b.

End JS.

(** ** The calls the class issues on the [mpc-js] client *)

Inductive event : Type :=
| ready
| socket_error
| socket_end.

(** A search filter: a list of [tag, value] pairs. *)
Definition criteria : Type := list (string * string).

Inductive command : Type :=
| AddListener (ev : event)                 (* player.addListener(ev, ...) *)
| ConnectTCP (host : string) (port : Z)    (* player.connectTCP *)
| Previous                                 (* player.playback.previous *)
| Next                                     (* player.playback.next *)
| Play                                     (* player.playback.play *)
| Pause                                    (* player.playback.pause *)
| Stop                                     (* player.playback.stop *)
| Clear                                    (* player.currentPlaylist.clear *)
| Status                                   (* player.status.status *)
| CurrentSong                              (* player.status.currentSong *)
| SetVolume (volume : Z)                   (* player.playbackOptions.setVolume *)
| Search (c : criteria)                    (* player.database.search *)
| SearchAdd (c : criteria)                 (* player.database.searchAdd *)
| ListPlaylist (name : string)             (* player.storedPlaylists.listPlaylist *)
| Load (name : string).                    (* player.storedPlaylists.load *)

Definition isStop (c : command) : bool :=
  match c with Stop => true | _ => false end.
Definition isClear (c : command) : bool :=
  match c with Clear => true | _ => false end.
Definition isCurrentSong (c : command) : bool :=
  match c with CurrentSong => true | _ => false end.
Definition isSetVolume (c : command) : bool :=
  match c with SetVolume _ => true | _ => false end.
Definition isSearchAdd (c : command) : bool :=
  match c with SearchAdd _ => true | _ => false end.
Definition isLoad (c : command) : bool :=
  match c with Load _ => true | _ => false end.
Definition isConnectTCP (c : command) : bool :=
  match c with ConnectTCP _ _ => true | _ => false end.
Definition isAddListener (c : command) : bool :=
  match c with AddListener _ => true | _ => false end.

(** Number of calls of one kind in a trace. *)
Definition count (f : command -> bool) (l : list command) : nat :=
  length (filter f l).

(** ** Constructor options

    [interface SnipsPlayerInitOptions]: every field is optional; [None]
    is an absent field. *)
Record SnipsPlayerInitOptions : Type := mkOptions
  { opt_host : option string;
    opt_port : option Z;
    opt_defaultVolume : option Z;
    opt_enableRandom : option bool }.

(** ** Settled promises

    A rejection carries either an [Error] built by the class itself
    ([new Error(message)]) or an error coming from the client. *)
Inductive error (MPDError : Type) : Type :=
| Error (message : string)
| ClientError (e : MPDError).
Arguments Error {MPDError} message.
Arguments ClientError {MPDError} e.

Inductive outcome (MPDError A : Type) : Type :=
| Fulfilled (a : A)
| Rejected (e : error MPDError).
Arguments Fulfilled {MPDError A} a.
Arguments Rejected {MPDError A} e.

(** How the client settles a call: with a value, or with an error of its
    own.  The client is a library: it never builds the [Error] values the
    class throws. *)
Inductive answer (MPDError A : Type) : Type :=
| Done (a : A)
| Failed (e : MPDError).
Arguments Done {MPDError A} a.
Arguments Failed {MPDError A} e.

(** What each call resolves with when it is fulfilled. *)
Definition reply (StatusInfo Song PlaylistItem : Type) (c : command) : Type :=
  match c with
  | Status => StatusInfo
  | CurrentSong => Song
  | Search _ => list Song
  | ListPlaylist _ => list PlaylistItem
  | _ => unit
  end.

(** ** A scripted client

    Used by the examples: it answers every call from a fixed table and
    keeps no state.  Status objects, songs, playlist entries and client
    errors are plain strings; the state of a status object is the string
    itself. *)
Module Mock.

Record client : Type := mkClient
  { status_reply : answer string string;
    currentSong_reply : answer string string;
    search_reply : answer string (list string);
    searchAdd_reply : answer string unit;
    listPlaylist_reply : answer string (list string);
    load_reply : answer string unit;
    clear_reply : answer string unit;
    other_reply : answer string unit }.

Definition state (res : string) : string := res.

(** Lowercasing for the names of the examples, which are ASCII: the
    letters [A]-[Z] become [a]-[z] and every other character is kept, as
    [String.prototype.toLowerCase] does on such names.  The properties of
    the class are proved for an arbitrary lowercase function; this one
    only instantiates them. *)
Definition lower_char (c : ascii) : ascii :=
  let n := nat_of_ascii c in
  if (65 <=? n)%nat && (n <=? 90)%nat then ascii_of_nat (n + 32) else c.

Fixpoint toLowerCase (s : string) : string :=
  match s with
  | EmptyString => EmptyString
  | String c s' => String (lower_char c) (toLowerCase s')
  end.

Definition respond (c : command) (m : client)
  : answer string (reply string string string c) * client :=
  (match c return answer string (reply string string string c) with
   | Status => status_reply m
   | CurrentSong => currentSong_reply m
   | Search _ => search_reply m
   | SearchAdd _ => searchAdd_reply m
   | ListPlaylist _ => listPlaylist_reply m
   | Load _ => load_reply m
   | Clear => clear_reply m
   | _ => other_reply m
   end, m).

(** A server that is playing, finds one song and one playlist entry, and
    accepts every command. *)
Definition healthy : client :=
  {| status_reply := Done "play";
     currentSong_reply := Done "Blue in Green";
     search_reply := Done ["Blue in Green"];
     searchAdd_reply := Done tt;
     listPlaylist_reply := Done ["So What"];
     load_reply := Done tt;
     clear_reply := Done tt;
     other_reply := Done tt |}.

(** The same server with an empty database and no stored playlist. *)
Definition empty : client :=
  {| status_reply := Done "stop";
     currentSong_reply := Done "";
     search_reply := Done [];
     searchAdd_reply := Done tt;
     listPlaylist_reply := Done [];
     load_reply := Done tt;
     clear_reply := Done tt;
     other_reply := Done tt |}.

(** A paused server. *)
Definition paused : client :=
  {| status_reply := Done "pause";
     currentSong_reply := Done "Blue in Green";
     search_reply := Done ["Blue in Green"];
     searchAdd_reply := Done tt;
     listPlaylist_reply := Done ["So What"];
     load_reply := Done tt;
     clear_reply := Done tt;
     other_reply := Done tt |}.

(** A server that finds songs and playlists but refuses to clear the
    queue. *)
Definition clear_refused : client :=
  {| status_reply := Done "play";
     currentSong_reply := Done "Blue in Green";
     search_reply := Done ["Blue in Green"];
     searchAdd_reply := Done tt;
     listPlaylist_reply := Done ["So What"];
     load_reply := Done tt;
     clear_reply := Failed "permission denied";
     other_reply := Done tt |}.

(** A server that lists a playlist and clears the queue but fails to
    load the playlist. *)
Definition load_refused : client :=
  {| status_reply := Done "play";
     currentSong_reply := Done "Blue in Green";
     search_reply := Done ["Blue in Green"];
     searchAdd_reply := Done tt;
     listPlaylist_reply := Done ["So What"];
     load_reply := Failed "No such file";
     clear_reply := Done tt;
     other_reply := Done tt |}.

(** A server that answers neither the status query nor a search. *)
Definition queries_refused : client :=
  {| status_reply := Failed "Connection closed";
     currentSong_reply := Done "Blue in Green";
     search_reply := Failed "Connection closed";
     searchAdd_reply := Done tt;
     listPlaylist_reply := Done ["So What"];
     load_reply := Done tt;
     clear_reply := Done tt;
     other_reply := Done tt |}.

End Mock.

Section Adapter.

(** The types of the libraries the class is written against. *)
Variable Dialog : Type.          (* hermes-javascript dialog handle *)
Variable MPC : Type.             (* an mpc-js client, with its connection *)
Variable StatusInfo : Type.      (* what player.status.status() yields *)
Variable Song : Type.            (* a song of the database *)
Variable PlaylistItem : Type.    (* an entry of a stored playlist *)
Variable MPDError : Type.        (* an error raised by the client *)

(** [res.state] of a status object. *)
Variable state : StatusInfo -> string.

(** [String.prototype.toLowerCase], the built-in of the JavaScript
    engine, on every string (Unicode letters included). *)
Variable toLowerCase : string -> string.

(** [new MPC()], and the behaviour of the client: the settled value of
    each call together with the client afterwards. *)
Variable new_MPC : MPC.
Variable respond :
  forall c : command,
    MPC -> answer MPDError (reply StatusInfo Song PlaylistItem c) * MPC.

(** *** The instance *)

Record SnipsPlayer : Type := mkSnipsPlayer
  { dialog : Dialog;
    player : MPC;
    host : string;
    port : Z;
    volume : Z;
    volumeSilence : Z;
    enableRandom : bool;
    isReady : bool }.

Definition set_player (m : MPC) (p : SnipsPlayer) : SnipsPlayer :=
  mkSnipsPlayer (dialog p) m (host p) (port p) (volume p)
                (volumeSilence p) (enableRandom p) (isReady p).
Definition set_host (h : string) (p : SnipsPlayer) : SnipsPlayer :=
  mkSnipsPlayer (dialog p) (player p) h (port p) (volume p)
                (volumeSilence p) (enableRandom p) (isReady p).
Definition set_port (n : Z) (p : SnipsPlayer) : SnipsPlayer :=
  mkSnipsPlayer (dialog p) (player p) (host p) n (volume p)
                (volumeSilence p) (enableRandom p) (isReady p).
Definition set_volume (v : Z) (p : SnipsPlayer) : SnipsPlayer :=
  mkSnipsPlayer (dialog p) (player p) (host p) (port p) v
                (volumeSilence p) (enableRandom p) (isReady p).
Definition set_enableRandom (b : bool) (p : SnipsPlayer) : SnipsPlayer :=
  mkSnipsPlayer (dialog p) (player p) (host p) (port p) (volume p)
                (volumeSilence p) b (isReady p).
Definition set_isReady (b : bool) (p : SnipsPlayer) : SnipsPlayer :=
  mkSnipsPlayer (dialog p) (player p) (host p) (port p) (volume p)
                (volumeSilence p) (enableRandom p) b.

(** Field initialisers of the class body. *)
Definition initial_fields (d : Dialog) : SnipsPlayer :=
  {| dialog := d;
     player := new_MPC;
     host := "localhost";
     port := 6600;
     volume := 80;
     volumeSilence := 20;
     enableRandom := true;
     isReady := false |}.

(** Lines written through [logger]. *)
Inductive log_entry : Type :=
| LogInfo (msg : string)
| LogDebug (msg : string)
| LogDebugStatus (res : StatusInfo)
| LogDebugItems (res : list PlaylistItem).

(** The instance, the calls issued on the client so far (oldest first)
    and the logger output. *)
Record world : Type := mkWorld
  { self : SnipsPlayer;
    calls : list command;
    logs : list log_entry }.

(** *** Promises *)

Definition Promise (A : Type) : Type := world -> outcome MPDError A * world.

Definition resolve {A} (a : A) : Promise A := fun w => (Fulfilled a, w).

(** [throw new Error(...)] inside a callback. *)
Definition throw {A} (e : error MPDError) : Promise A := fun w => (Rejected e, w).

(** [p.then(f)]: [f] runs only when [p] is fulfilled; a rejection of [p]
    is passed on and [f] is skipped. *)
Definition then_ {A B} (p : Promise A) (f : A -> Promise B) : Promise B :=
  fun w =>
    match p w with
    | (Fulfilled a, w') => f a w'
    | (Rejected e, w') => (Rejected e, w')
    end.

(** [p.catch(h)]: [h] runs only when [p] is rejected. *)
Definition catch_ {A} (p : Promise A) (h : error MPDError -> Promise A) : Promise A :=
  fun w =>
    match p w with
    | (Fulfilled a, w') => (Fulfilled a, w')
    | (Rejected e, w') => h e w'
    end.

(** A call whose promise is dropped by the caller. *)
Definition ignore {A} (p : Promise A) : Promise unit :=
  fun w => (Fulfilled tt, snd (p w)).

(** Reading and writing the fields of [this]. *)
Definition this {A} (f : SnipsPlayer -> A) : Promise A :=
  fun w => (Fulfilled (f (self w)), w).

Definition assign (f : SnipsPlayer -> SnipsPlayer) : Promise unit :=
  fun w => (Fulfilled tt, mkWorld (f (self w)) (calls w) (logs w)).

Definition logger (e : log_entry) : Promise unit :=
  fun w => (Fulfilled tt, mkWorld (self w) (calls w) (logs w ++ [e])).

(** The promise a call of the client returns. *)
Definition settled {A} (r : answer MPDError A) : outcome MPDError A :=
  match r with
  | Done a => Fulfilled a
  | Failed e => Rejected (ClientError e)
  end.

(** A call on [this.player]: recorded in the trace, settled by the
    client. *)
Definition call (c : command)
  : Promise (reply StatusInfo Song PlaylistItem c) :=
  fun w =>
    let (r, m) := respond c (player (self w)) in
    (settled r, mkWorld (set_player m (self w)) (calls w ++ [c]) (logs w)).

Notation "x <- p ;; q" := (then_ p (fun x => q))
  (at level 61, p at next level, right associativity).
Notation "p ;; q" := (then_ p (fun _ => q))
  (at level 61, right associativity).

(** The calls a computation adds to the trace of [w]. *)
Definition issued {A} (p : Promise A) (w : world) : list command :=
  skipn (length (calls w)) (calls (snd (p w))).

(** *** Methods of the class *)

Definition previous : Promise unit := call Previous.
Definition next : Promise unit := call Next.
Definition play : Promise unit := call Play.
Definition pause : Promise unit := call Pause.
Definition stop : Promise unit := call Stop.
Definition clear : Promise unit := call Clear.

Definition __getStatus : Promise StatusInfo := call Status.
Definition __getCurrentSong : Promise Song := call CurrentSong.
Definition __setVolume (v : Z) : Promise unit := call (SetVolume v).

Definition getPlayingInfo : Promise Song :=
  res <- __getStatus ;;
  logger (LogDebugStatus res) ;;
  if String.eqb (state res) "stop" || String.eqb (state res) "pause"
  then throw (Error "nothingPlaying")
  else __getCurrentSong.

Definition saveVolume (v : Z) : Promise unit :=
  assign (set_volume v) ;;
  v' <- this volume ;;
  __setVolume v'.

Definition setVolumeToSilence : Promise unit :=
  v <- this volumeSilence ;;
  __setVolume v.

Definition setVolumeToNormal : Promise unit :=
  v <- this volume ;;
  __setVolume v.

(** [x ? x : ''] on an argument that may be missing. *)
Definition or_empty (x : option string) : string :=
  match x with
  | Some s => if JS.truthy_string s then s else ""
  | None => ""
  end.

Definition search_criteria (song album artist : option string) : criteria :=
  [ ("Title", or_empty song);
    ("Album", or_empty album);
    ("Artist", or_empty artist) ].

Definition __checkExistance (song album artist : option string)
  : Promise (list Song) :=
  call (Search (search_criteria song album artist)).

Definition __createPlayList (song album artist : option string)
  : Promise unit :=
  call (SearchAdd (search_criteria song album artist)).

Definition createPlayListIfPossible (song album artist : option string)
  : Promise unit :=
  then_
    (then_ (__checkExistance song album artist)
           (fun res =>
              if Nat.eqb (length res) 0
              then throw (Error "notFound")
              else clear))
    (fun _ => __createPlayList song album artist).

Definition playlist_file (playlist : string) : string :=
  toLowerCase playlist ++ ".m3u".

Definition __checkExistancePlaylist (playlist : string)
  : Promise (list PlaylistItem) :=
  call (ListPlaylist (playlist_file playlist)).

Definition __loadSongFromSavedPlaylist (playlist : string) : Promise unit :=
  call (Load (playlist_file playlist)).

Definition loadPlaylistIfPossible (playlist : string) : Promise unit :=
  then_
    (catch_
       (then_ (__checkExistancePlaylist playlist)
              (fun res =>
                 if Nat.eqb (length res) 0
                 then logger (LogDebugItems res) ;;
                      logger (LogDebug "did not pass checking") ;;
                      throw (Error "notFound")
                 else clear))
       (fun _ => throw (Error "notFound")))
    (fun _ => __loadSongFromSavedPlaylist playlist).

(** *** Connection life cycle *)

Definition __init : Promise unit :=
  assign (set_isReady true) ;;
  ignore setVolumeToNormal ;;
  ignore stop ;;
  logger (LogInfo "MPD client is ready to use").

(** The three callbacks registered by [__startMonitoring]. *)
Definition listener (ev : event) : Promise unit :=
  match ev with
  | ready => __init
  | socket_error =>
      assign (set_isReady false) ;;
      throw (Error "mpdConnectionFaild")
  | socket_end =>
      assign (set_isReady false) ;;
      throw (Error "mpdConnectionEnd")
  end.

Definition __startMonitoring : Promise unit :=
  ignore (call (AddListener ready)) ;;
  ignore (call (AddListener socket_error)) ;;
  ignore (call (AddListener socket_end)).

(** [if (x) { this.f = x }] on an optional field. *)
Definition when_truthy {A} (x : option A) (truthy : A -> bool)
           (set : A -> SnipsPlayer -> SnipsPlayer) : Promise unit :=
  match x with
  | Some a => if truthy a then assign (set a) else resolve tt
  | None => resolve tt
  end.

Definition constructor_body (options : SnipsPlayerInitOptions)
  : Promise unit :=
  when_truthy (opt_host options) JS.truthy_string set_host ;;
  when_truthy (opt_port options) JS.truthy_number set_port ;;
  when_truthy (opt_defaultVolume options) JS.truthy_number set_volume ;;
  when_truthy (opt_enableRandom options) JS.truthy_boolean set_enableRandom ;;
  __startMonitoring ;;
  h <- this host ;;
  p <- this port ;;
  ignore (call (ConnectTCP h p)).

(** [new SnipsPlayer(dialog, options)]. *)
Definition constructor (d : Dialog) (options : SnipsPlayerInitOptions)
  : world :=
  snd (constructor_body options (mkWorld (initial_fields d) [] [])).

(** *** The instance as seen by its users

    [fields_of] is everything the instance stores besides the client
    object.  The class declares no member private, so an operation is any
    method, or the delivery of a life-cycle event to its listener. *)

Definition fields_of (p : SnipsPlayer)
  : Dialog * string * Z * Z * Z * bool * bool :=
  (dialog p, host p, port p, volume p, volumeSilence p, enableRandom p,
   isReady p).

Inductive value : Type :=
| VUnit
| VStatus (res : StatusInfo)
| VSong (res : Song)
| VSongs (res : list Song)
| VItems (res : list PlaylistItem).

Inductive operation : Type :=
| op_previous
| op_next
| op_play
| op_pause
| op_stop
| op_clear
| op_getPlayingInfo
| op_saveVolume (v : Z)
| op_setVolumeToSilence
| op_setVolumeToNormal
| op_createPlayListIfPossible (song album artist : option string)
| op_loadPlaylistIfPossible (playlist : string)
| op___getStatus
| op___getCurrentSong
| op___setVolume (v : Z)
| op___checkExistance (song album artist : option string)
| op___createPlayList (song album artist : option string)
| op___checkExistancePlaylist (playlist : string)
| op___loadSongFromSavedPlaylist (playlist : string)
| op___init
| op___startMonitoring
| op_emit (ev : event).

Definition returning {A} (inj : A -> value) (p : Promise A) : Promise value :=
  x <- p ;; resolve (inj x).

Definition exec (o : operation) : Promise value :=
  let unit_ := fun _ : unit => VUnit in
  match o with
  | op_previous => returning unit_ previous
  | op_next => returning unit_ next
  | op_play => returning unit_ play
  | op_pause => returning unit_ pause
  | op_stop => returning unit_ stop
  | op_clear => returning unit_ clear
  | op_getPlayingInfo => returning VSong getPlayingInfo
  | op_saveVolume v => returning unit_ (saveVolume v)
  | op_setVolumeToSilence => returning unit_ setVolumeToSilence
  | op_setVolumeToNormal => returning unit_ setVolumeToNormal
  | op_createPlayListIfPossible s a r =>
      returning unit_ (createPlayListIfPossible s a r)
  | op_loadPlaylistIfPossible p => returning unit_ (loadPlaylistIfPossible p)
  | op___getStatus => returning VStatus __getStatus
  | op___getCurrentSong => returning VSong __getCurrentSong
  | op___setVolume v => returning unit_ (__setVolume v)
  | op___checkExistance s a r => returning VSongs (__checkExistance s a r)
  | op___createPlayList s a r => returning unit_ (__createPlayList s a r)
  | op___checkExistancePlaylist p =>
      returning VItems (__checkExistancePlaylist p)
  | op___loadSongFromSavedPlaylist p =>
      returning unit_ (__loadSongFromSavedPlaylist p)
  | op___init => returning unit_ __init
  | op___startMonitoring => returning unit_ __startMonitoring
  | op_emit ev => returning unit_ (listener ev)
  end.

(** A life of the instance: operations one after the other, whatever
    their outcome. *)
Fixpoint run (ops : list operation) (w : world) : world :=
  match ops with
  | [] => w
  | o :: ops' => run ops' (snd (exec o w))
  end.

(** The same world with another value in the random flag. *)
Definition with_random (b : bool) (w : world) : world :=
  mkWorld (set_enableRandom b (self w)) (calls w) (logs w).

(** ** Properties *)

Lemma skipn_app_length {A} (l l' : list A) :
  skipn (length l) (l ++ l') = l'.
Proof.
  induction l as [|a l IH]; simpl; [reflexivity | exact IH].
Qed.

(** One call adds itself to the trace and nothing else; the instance only
    sees its client change. *)
Lemma call_world (c : command) (w : world) :
  snd (call c w)
  = mkWorld (set_player (snd (respond c (player (self w)))) (self w))
            (calls w ++ [c]) (logs w).
Proof.
  unfold call. destruct (respond c (player (self w))); reflexivity.
Qed.

Lemma or_empty_default (x : option string) :
  or_empty x = match x with Some s => s | None => "" end.
Proof.
  destruct x as [[|c s]|]; reflexivity.
Qed.

(** Normalises a trace [(l ++ [a]) ++ [b] ...] and strips the prefix
    [issued] skips. *)
Ltac trace :=
  unfold issued; simpl;
  repeat rewrite <- app_assoc; simpl;
  try rewrite skipn_app_length; try reflexivity.

(** Runs a method symbolically: every answer of the client becomes a
    case. *)
Ltac settle :=
  repeat match goal with
         | |- context [respond ?c ?m] =>
             let r := fresh "r" in
             let m' := fresh "m" in
             let E := fresh "E" in
             destruct (respond c m) as [r m'] eqn:E; simpl in *;
             destruct r; simpl in *
         end.

Ltac unfold_methods :=
  unfold exec, returning, listener, __init, __startMonitoring,
    getPlayingInfo, saveVolume, setVolumeToSilence, setVolumeToNormal,
    createPlayListIfPossible, loadPlaylistIfPossible,
    __checkExistance, __createPlayList, __checkExistancePlaylist,
    __loadSongFromSavedPlaylist, __getStatus, __getCurrentSong, __setVolume,
    previous, next, play, pause, stop, clear,
    then_, catch_, ignore, this, assign, logger, resolve, throw, call in *.

(** C6. When the [ready] event is delivered, the listener leaves the
    readiness flag true, has issued a set-volume call with the stored
    normal volume (which it does not change) followed by a stop call, and
    these are its only calls: one set-volume, one stop. *)
Theorem ready_listener_spec (w : world) :
  let w' := snd (listener ready w) in
  isReady (self w') = true /\
  volume (self w') = volume (self w) /\
  issued (listener ready) w = [SetVolume (volume (self w)); Stop] /\
  count isSetVolume (issued (listener ready) w) = 1%nat /\
  count isStop (issued (listener ready) w) = 1%nat.
Proof.
  assert (H : issued (listener ready) w = [SetVolume (volume (self w)); Stop]).
  { unfold_methods. unfold issued. simpl. settle; trace. }
  cbv zeta. rewrite H. repeat split.
  - unfold_methods. simpl. settle; reflexivity.
  - unfold_methods. simpl. settle; reflexivity.
Qed.

(** The volume methods are one call each. *)
Lemma setVolumeToNormal_call (w : world) :
  setVolumeToNormal w = call (SetVolume (volume (self w))) w.
Proof. reflexivity. Qed.

Lemma setVolumeToSilence_call (w : world) :
  setVolumeToSilence w = call (SetVolume (volumeSilence (self w))) w.
Proof. reflexivity. Qed.

Lemma saveVolume_call (v : Z) (w : world) :
  saveVolume v w
  = call (SetVolume v) (mkWorld (set_volume v (self w)) (calls w) (logs w)).
Proof. reflexivity. Qed.

(** C7. [saveVolume v] stores [v] as the normal volume and issues one
    call, a set-volume with [v]; a [setVolumeToNormal] right after it
    issues a set-volume with the same [v] and leaves every stored field as
    it was. *)
Theorem saveVolume_then_normal (v : Z) (w : world) :
  let w1 := snd (saveVolume v w) in
  let w2 := snd (setVolumeToNormal w1) in
  volume (self w1) = v /\
  issued (saveVolume v) w = [SetVolume v] /\
  count isSetVolume (issued (saveVolume v) w) = 1%nat /\
  issued setVolumeToNormal w1 = [SetVolume v] /\
  fields_of (self w2) = fields_of (self w1).
Proof.
  assert (H : issued (saveVolume v) w = [SetVolume v]).
  { unfold issued. rewrite saveVolume_call, (call_world (SetVolume v)).
    simpl. apply skipn_app_length. }
  assert (V : volume (self (snd (saveVolume v w))) = v).
  { rewrite saveVolume_call, (call_world (SetVolume v)). reflexivity. }
  cbv zeta. rewrite H. repeat split; try assumption.
  - unfold issued. rewrite setVolumeToNormal_call, (call_world (SetVolume _)), V.
    simpl. apply skipn_app_length.
  - rewrite setVolumeToNormal_call, (call_world (SetVolume _)). reflexivity.
Qed.

(** C8. [setVolumeToSilence] issues a set-volume call with the stored
    silence level, [setVolumeToNormal] one with the stored normal level;
    neither changes a stored field (host, port, normal volume, silence
    volume, random flag, readiness, dialog). *)
Theorem volume_ducking_frame (w : world) :
  issued setVolumeToSilence w = [SetVolume (volumeSilence (self w))] /\
  fields_of (self (snd (setVolumeToSilence w))) = fields_of (self w) /\
  issued setVolumeToNormal w = [SetVolume (volume (self w))] /\
  fields_of (self (snd (setVolumeToNormal w))) = fields_of (self w).
Proof.
  unfold issued.
  rewrite setVolumeToSilence_call, setVolumeToNormal_call.
  rewrite !(call_world (SetVolume _)).
  simpl. rewrite !skipn_app_length. repeat split.
Qed.

(** C2, as the code has it.  Both listeners clear the readiness flag and
    throw.  The [socket-end] listener throws [mpdConnectionEnd]; the
    [socket-error] listener throws an error whose message is
    [mpdConnectionFaild], which is not the name [mpdConnectionFailed]. *)
Theorem socket_listeners_spec (w : world) :
  isReady (self (snd (listener socket_error w))) = false /\
  fst (listener socket_error w) = Rejected (Error "mpdConnectionFaild") /\
  fst (listener socket_error w) <> Rejected (Error "mpdConnectionFailed") /\
  isReady (self (snd (listener socket_end w))) = false /\
  fst (listener socket_end w) = Rejected (Error "mpdConnectionEnd").
Proof.
  unfold_methods. simpl. repeat split. discriminate.
Qed.

(** C5. [getPlayingInfo] is rejected with [nothingPlaying] exactly when
    the status query answers with a state that is [stop] or [pause]; in
    that case the only call issued is the status query.  For an answer
    with any other state the current-song query is issued next, and the
    promise settles as that query does. *)
Theorem getPlayingInfo_spec (w : world) :
  let status := fst (respond Status (player (self w))) in
  let w1 := snd (__getStatus w) in
  (fst (getPlayingInfo w) = Rejected (Error "nothingPlaying") <->
   exists res : StatusInfo,
     status = Done res /\ (state res = "stop" \/ state res = "pause")) /\
  (forall res : StatusInfo,
      status = Done res ->
      state res = "stop" \/ state res = "pause" ->
      issued getPlayingInfo w = [Status] /\
      count isCurrentSong (issued getPlayingInfo w) = 0%nat) /\
  (forall res : StatusInfo,
      status = Done res ->
      state res <> "stop" ->
      state res <> "pause" ->
      issued getPlayingInfo w = [Status; CurrentSong] /\
      fst (getPlayingInfo w)
      = settled (fst (respond CurrentSong (player (self w1))))).
Proof.
  cbv zeta.
  unfold getPlayingInfo, __getStatus, __getCurrentSong, then_, logger, issued.
  unfold call.
  destruct (respond Status (player (self w))) as [[res|e] m] eqn:E; simpl.
  - destruct (String.eqb_spec (state res) "stop") as [Hs|Hs];
      [|destruct (String.eqb_spec (state res) "pause") as [Hp|Hp]]; simpl.
    + split; [|split].
      * split; [intros _; exists res; auto | reflexivity].
      * intros res' H _. rewrite skipn_app_length. split; reflexivity.
      * intros res' H Hn. inversion H; subst. contradiction.
    + split; [|split].
      * split; [intros _; exists res; auto | reflexivity].
      * intros res' H _. rewrite skipn_app_length. split; reflexivity.
      * intros res' H _ Hn. inversion H; subst. contradiction.
    + destruct (respond CurrentSong m) as [[song|e] m'] eqn:E'; simpl.
      all: split; [|split].
      all: try (intros res' H [H'|H']; inversion H; subst; contradiction).
      all: try (intros res' H _ _; rewrite <- app_assoc;
                rewrite skipn_app_length; split; reflexivity).
      all: split; [discriminate|].
      all: intros (res' & H & [H'|H']); inversion H; subst; contradiction.
  - split; [|split].
    + split; [discriminate | intros (res & H & _); discriminate].
    + intros res H; discriminate.
    + intros res H; discriminate.
Qed.

Lemma search_criteria_spelled (song album artist : option string) :
  search_criteria song album artist
  = [ ("Title", match song with Some s => s | None => "" end);
      ("Album", match album with Some s => s | None => "" end);
      ("Artist", match artist with Some s => s | None => "" end) ].
Proof.
  unfold search_criteria. rewrite !or_empty_default. reflexivity.
Qed.

(** C3, amended.  [createPlayListIfPossible] first issues a search with
    the criteria Title, Album, Artist, an absent argument standing as the
    empty string.  If the search answers with an empty list the promise is
    rejected with [notFound] and no other call is issued.  If it answers
    with a non-empty list, clear is called once; when clear is fulfilled,
    search-add is then called once with the same criteria and the promise
    settles as search-add does; when clear is rejected, its error is the
    result and search-add is not called. *)
Theorem createPlayListIfPossible_spec
        (song album artist : option string) (w : world) :
  let crit :=
    [ ("Title", match song with Some s => s | None => "" end);
      ("Album", match album with Some s => s | None => "" end);
      ("Artist", match artist with Some s => s | None => "" end) ] in
  let create := createPlayListIfPossible song album artist in
  let found := fst (respond (Search crit) (player (self w))) in
  let w1 := snd (call (Search crit) w) in
  let cleared := fst (respond Clear (player (self w1))) in
  let w2 := snd (call Clear w1) in
  (exists rest, issued create w = Search crit :: rest) /\
  (found = Done [] ->
   fst (create w) = Rejected (Error "notFound") /\
   issued create w = [Search crit] /\
   count isClear (issued create w) = 0%nat /\
   count isSearchAdd (issued create w) = 0%nat) /\
  (forall res : list Song,
      found = Done res -> res <> [] ->
      cleared = Done tt ->
      issued create w = [Search crit; Clear; SearchAdd crit] /\
      count isClear (issued create w) = 1%nat /\
      count isSearchAdd (issued create w) = 1%nat /\
      fst (create w)
      = settled (fst (respond (SearchAdd crit) (player (self w2))))) /\
  (forall (res : list Song) (e : MPDError),
      found = Done res -> res <> [] ->
      cleared = Failed e ->
      issued create w = [Search crit; Clear] /\
      count isClear (issued create w) = 1%nat /\
      count isSearchAdd (issued create w) = 0%nat /\
      fst (create w) = Rejected (ClientError e)).
Proof.
  cbv zeta. unfold createPlayListIfPossible, __checkExistance, __createPlayList.
  rewrite search_criteria_spelled.
  set (crit := [("Title", _); ("Album", _); ("Artist", _)]).
  unfold clear, then_, issued, call.
  destruct (respond (Search crit) (player (self w))) as [[res|e] m] eqn:E;
    simpl.
  - destruct res as [|song1 res]; simpl.
    + rewrite skipn_app_length.
      split; [eexists; reflexivity|]. split; [repeat split|].
      split; intros; congruence.
    + destruct (respond Clear m) as [[[]|e] m1] eqn:E1; simpl.
      * destruct (respond (SearchAdd crit) m1) as [r m2] eqn:E2; simpl.
        rewrite <- !app_assoc. simpl. rewrite skipn_app_length.
        split; [eexists; reflexivity|]. split; [discriminate|].
        split; [repeat split | discriminate].
      * rewrite <- !app_assoc. simpl. rewrite skipn_app_length.
        split; [eexists; reflexivity|]. split; [discriminate|].
        split; [discriminate|]. intros res' e' _ _ H. inversion H; subst.
        repeat split.
  - rewrite skipn_app_length.
    split; [eexists; reflexivity|]. split; [discriminate|].
    split; intros; discriminate.
Qed.

(** C4. [loadPlaylistIfPossible name] first lists the stored playlist
    [lowercase(name) + ".m3u"].  When the listing is empty, or the listing
    or the clear that follows a non-empty listing is rejected, the promise
    is rejected with [notFound], whatever the error was, and nothing is
    loaded.  When the listing is non-empty and clear is fulfilled, the
    calls are the listing, clear, and the load of the same file. *)
Theorem loadPlaylistIfPossible_spec (playlist : string) (w : world) :
  let file := (toLowerCase playlist ++ ".m3u")%string in
  let load := loadPlaylistIfPossible playlist in
  let listing := fst (respond (ListPlaylist file) (player (self w))) in
  let w1 := snd (call (ListPlaylist file) w) in
  let cleared := fst (respond Clear (player (self w1))) in
  (exists rest, issued load w = ListPlaylist file :: rest) /\
  (listing = Done [] \/ (exists e, listing = Failed e) ->
   fst (load w) = Rejected (Error "notFound") /\
   issued load w = [ListPlaylist file] /\
   count isLoad (issued load w) = 0%nat) /\
  (forall (res : list PlaylistItem) (e : MPDError),
      listing = Done res -> res <> [] ->
      cleared = Failed e ->
      fst (load w) = Rejected (Error "notFound") /\
      issued load w = [ListPlaylist file; Clear] /\
      count isLoad (issued load w) = 0%nat) /\
  (forall res : list PlaylistItem,
      listing = Done res -> res <> [] ->
      cleared = Done tt ->
      issued load w = [ListPlaylist file; Clear; Load file]).
Proof.
  cbv zeta.
  unfold loadPlaylistIfPossible, __checkExistancePlaylist,
    __loadSongFromSavedPlaylist, playlist_file.
  set (file := (toLowerCase playlist ++ ".m3u")%string).
  unfold clear, then_, catch_, logger, throw, issued, call.
  destruct (respond (ListPlaylist file) (player (self w))) as [[res|e] m] eqn:E;
    simpl.
  - destruct res as [|item res]; simpl.
    + rewrite skipn_app_length.
      split; [eexists; reflexivity|]. split; [repeat split|].
      split; intros; congruence.
    + destruct (respond Clear m) as [[[]|e] m1] eqn:E1; simpl.
      * destruct (respond (Load file) m1) as [r m2] eqn:E2; simpl.
        rewrite <- !app_assoc. simpl. rewrite skipn_app_length.
        split; [eexists; reflexivity|].
        split; [intros [H|[e H]]; discriminate|].
        split; [discriminate | auto].
      * rewrite <- !app_assoc. simpl. rewrite skipn_app_length.
        split; [eexists; reflexivity|].
        split; [intros [H|[e' H]]; discriminate|].
        split; [repeat split | discriminate].
  - rewrite skipn_app_length.
    split; [eexists; reflexivity|]. split; [repeat split|].
    split; intros; discriminate.
Qed.

(** C10. In [loadPlaylistIfPossible], once the listing is non-empty and
    clear is fulfilled, the promise settles exactly as the load call does:
    an error of the load reaches the caller as it is, and it is not
    [notFound].  An error of the listing or of clear is replaced by
    [notFound]. *)
Theorem load_error_not_coerced (playlist : string) (w : world) :
  let file := (toLowerCase playlist ++ ".m3u")%string in
  let load := loadPlaylistIfPossible playlist in
  let listing := fst (respond (ListPlaylist file) (player (self w))) in
  let w1 := snd (call (ListPlaylist file) w) in
  let cleared := fst (respond Clear (player (self w1))) in
  let w2 := snd (call Clear w1) in
  let loaded := fst (respond (Load file) (player (self w2))) in
  (forall (res : list PlaylistItem) (e : MPDError),
      listing = Done res -> res <> [] ->
      cleared = Done tt ->
      loaded = Failed e ->
      fst (load w) = Rejected (ClientError e) /\
      fst (load w) <> Rejected (Error "notFound")) /\
  (forall res : list PlaylistItem,
      listing = Done res -> res <> [] ->
      cleared = Done tt ->
      fst (load w) = settled loaded) /\
  (forall e : MPDError,
      listing = Failed e -> fst (load w) = Rejected (Error "notFound")) /\
  (forall (res : list PlaylistItem) (e : MPDError),
      listing = Done res -> res <> [] ->
      cleared = Failed e ->
      fst (load w) = Rejected (Error "notFound")).
Proof.
  cbv zeta.
  unfold loadPlaylistIfPossible, __checkExistancePlaylist,
    __loadSongFromSavedPlaylist, playlist_file.
  set (file := (toLowerCase playlist ++ ".m3u")%string).
  unfold clear, then_, catch_, logger, throw, call.
  destruct (respond (ListPlaylist file) (player (self w))) as [[res|e] m] eqn:E;
    simpl.
  - destruct res as [|item res]; simpl.
    + repeat split; intros; congruence.
    + destruct (respond Clear m) as [[[]|e] m1] eqn:E1; simpl.
      * destruct (respond (Load file) m1) as [[[]|e] m2] eqn:E2; simpl.
        -- repeat split; intros; discriminate || reflexivity.
        -- split; [|split; [|split]]; intros; try discriminate; try reflexivity.
           match goal with H : Failed _ = Failed _ |- _ => inversion H; subst end.
           split; [reflexivity | discriminate].
      * repeat split; intros; discriminate || reflexivity.
  - repeat split; intros; discriminate || reflexivity.
Qed.

(** The constructor only writes fields through its four guarded
    assignments; the calls it issues leave the stored fields alone. *)
Lemma constructor_fields (d : Dialog) (options : SnipsPlayerInitOptions) :
  fields_of (self (constructor d options))
  = (d,
     match opt_host options with
     | Some h => if JS.truthy_string h then h else "localhost"
     | None => "localhost"
     end,
     match opt_port options with
     | Some n => if JS.truthy_number n then n else 6600%Z
     | None => 6600%Z
     end,
     match opt_defaultVolume options with
     | Some v => if JS.truthy_number v then v else 80%Z
     | None => 80%Z
     end,
     20%Z,
     match opt_enableRandom options with
     | Some b => if JS.truthy_boolean b then b else true
     | None => true
     end,
     false).
Proof.
  destruct options as [oh op ov ob].
  unfold constructor, constructor_body, __startMonitoring, when_truthy,
    then_, ignore, this, assign, resolve. simpl.
  destruct oh as [h|]; [destruct (JS.truthy_string h)|];
    (destruct op as [n|]; [destruct (JS.truthy_number n)|]);
    (destruct ov as [v|]; [destruct (JS.truthy_number v)|]);
    (destruct ob as [b|]; [destruct (JS.truthy_boolean b)|]);
    simpl;
    rewrite (call_world (ConnectTCP _ _)),
      (call_world (AddListener socket_end)),
      (call_world (AddListener socket_error)),
      (call_world (AddListener ready));
    reflexivity.
Qed.

(** C1, amended.  After construction the host, port and normal volume
    equal the override when the field is present and truthy (a non-empty
    host, a non-zero port, a non-zero volume), and the random flag equals
    an override that is present and true; a field that is absent leaves
    the default: host [localhost], port 6600, volume 80, random true.  A
    host override that is the empty string and a port override that is 0
    leave the default as well. *)
Theorem constructor_effective_settings
        (d : Dialog) (options : SnipsPlayerInitOptions) :
  let p := self (constructor d options) in
  (forall h, opt_host options = Some h -> h <> "" -> host p = h) /\
  (opt_host options = None \/ opt_host options = Some "" ->
   host p = "localhost") /\
  (forall n, opt_port options = Some n -> n <> 0%Z -> port p = n) /\
  (opt_port options = None \/ opt_port options = Some 0%Z ->
   port p = 6600%Z) /\
  (forall v, opt_defaultVolume options = Some v -> v <> 0%Z -> volume p = v) /\
  (opt_defaultVolume options = None -> volume p = 80%Z) /\
  (forall b, opt_enableRandom options = Some b -> b = true ->
             enableRandom p = b) /\
  (opt_enableRandom options = None -> enableRandom p = true).
Proof.
  cbv zeta. pose proof (constructor_fields d options) as F.
  unfold fields_of in F. injection F as _ Hh Hp Hv _ Hr _.
  rewrite Hh, Hp, Hv, Hr. clear Hh Hp Hv Hr.
  repeat split.
  - intros h E N. rewrite E. destruct h; [contradiction | reflexivity].
  - intros [E|E]; rewrite E; reflexivity.
  - intros n E N. rewrite E. unfold JS.truthy_number.
    destruct (Z.eqb_spec n 0); [contradiction | reflexivity].
  - intros [E|E]; rewrite E; reflexivity.
  - intros v E N. rewrite E. unfold JS.truthy_number.
    destruct (Z.eqb_spec v 0); [contradiction | reflexivity].
  - intros E. rewrite E. reflexivity.
  - intros b E B. rewrite E. subst b. reflexivity.
  - intros E. rewrite E. reflexivity.
Qed.

(** Case analysis for a whole method: every answer of the client and
    every test of the method becomes a case. *)
Ltac cases :=
  repeat match goal with
         | |- context [respond ?c ?m] =>
             lazymatch m with
             | context [respond _ _] => fail
             | _ => let r := fresh "r" in
                    destruct (respond c m) as [r ?]; destruct r; simpl
             end
         | |- context [if ?b then _ else _] => destruct b; simpl
         end.

Lemma exec_keeps_silence_and_random (o : operation) (w : world) :
  volumeSilence (self (snd (exec o w))) = volumeSilence (self w) /\
  enableRandom (self (snd (exec o w))) = enableRandom (self w).
Proof.
  destruct o as [| | | | | | | | | | | | | | | | | | | | |[| |]];
    unfold_methods; simpl; cases; split; reflexivity.
Qed.

Lemma run_keeps_silence_and_random (ops : list operation) (w : world) :
  volumeSilence (self (run ops w)) = volumeSilence (self w) /\
  enableRandom (self (run ops w)) = enableRandom (self w).
Proof.
  revert w. induction ops as [|o ops IH]; intros w; simpl.
  - split; reflexivity.
  - destruct (IH (snd (exec o w))) as [Hs Hr].
    destruct (exec_keeps_silence_and_random o w) as [Hs' Hr'].
    split; congruence.
Qed.

Lemma exec_ignores_random (o : operation) (b : bool) (w : world) :
  exec o (with_random b w)
  = (fst (exec o w), with_random b (snd (exec o w))).
Proof.
  destruct o as [| | | | | | | | | | | | | | | | | | | | |[| |]];
    unfold with_random; unfold_methods; simpl; cases; reflexivity.
Qed.

(** C9. Whatever operations are run on an instance after its
    construction, in any number and order and with any answers of the
    client, the silence level is still 20 and the random flag still has
    the value the constructor left.  No operation reads the random flag:
    run on a world that differs only in that flag, an operation issues the
    same calls, writes the same log lines, settles the same way and leaves
    the same fields, the flag apart. *)
Theorem silence_and_random_never_change
        (d : Dialog) (options : SnipsPlayerInitOptions)
        (ops : list operation) :
  let w0 := constructor d options in
  volumeSilence (self (run ops w0)) = 20%Z /\
  enableRandom (self (run ops w0)) = enableRandom (self w0) /\
  (forall (o : operation) (b : bool) (w : world),
      exec o (with_random b w)
      = (fst (exec o w), with_random b (snd (exec o w)))).
Proof.
  cbv zeta.
  destruct (run_keeps_silence_and_random ops (constructor d options))
    as [Hs Hr].
  pose proof (constructor_fields d options) as F.
  unfold fields_of in F. injection F as _ _ _ _ Hv _ _.
  split; [congruence|]. split; [assumption|].
  apply exec_ignores_random.
Qed.

(** ** Further properties of the class *)

(** Strips the prefix [issued] skips, whether calls were added or not. *)
Ltac added :=
  repeat rewrite <- app_assoc; simpl;
  first [rewrite skipn_app_length | rewrite skipn_all]; simpl.

(** X1. The constructor issues four calls and no other: it registers the
    listeners for [ready], [socket-error] and [socket-end], in that order,
    and only then connects, to the host and port the instance ends up
    with.  The instance starts not ready and nothing is logged. *)
Theorem constructor_registers_then_connects
        (d : Dialog) (options : SnipsPlayerInitOptions) :
  let w := constructor d options in
  calls w
  = [ AddListener ready; AddListener socket_error; AddListener socket_end;
      ConnectTCP (host (self w)) (port (self w)) ] /\
  isReady (self w) = false /\
  logs w = [].
Proof.
  destruct options as [oh op ov ob].
  unfold constructor, constructor_body, __startMonitoring, when_truthy,
    then_, ignore, this, assign, resolve. simpl.
  destruct oh as [h|]; [destruct (JS.truthy_string h)|];
    (destruct op as [n|]; [destruct (JS.truthy_number n)|]);
    (destruct ov as [v|]; [destruct (JS.truthy_number v)|]);
    (destruct ob as [b|]; [destruct (JS.truthy_boolean b)|]);
    simpl;
    rewrite (call_world (ConnectTCP _ _)),
      (call_world (AddListener socket_end)),
      (call_world (AddListener socket_error)),
      (call_world (AddListener ready));
    repeat split.
Qed.

(** X2. Whatever the options say, [enableRandom: false] included, the
    random flag is [true] after construction and stays [true] through
    every sequence of operations. *)
Theorem random_flag_always_true
        (d : Dialog) (options : SnipsPlayerInitOptions)
        (ops : list operation) :
  enableRandom (self (constructor d options)) = true /\
  enableRandom (self (run ops (constructor d options))) = true.
Proof.
  assert (H : enableRandom (self (constructor d options)) = true).
  { pose proof (constructor_fields d options) as F.
    unfold fields_of in F. injection F as _ _ _ _ _ Hr _. rewrite Hr.
    destruct (opt_enableRandom options) as [[|]|]; reflexivity. }
  split; [exact H|].
  destruct (run_keeps_silence_and_random ops (constructor d options))
    as [_ Hr].
  congruence.
Qed.

Lemma exec_keeps_connection (o : operation) (w : world) :
  dialog (self (snd (exec o w))) = dialog (self w) /\
  host (self (snd (exec o w))) = host (self w) /\
  port (self (snd (exec o w))) = port (self w).
Proof.
  destruct o as [| | | | | | | | | | | | | | | | | | | | |[| |]];
    unfold_methods; simpl; cases; repeat split.
Qed.

(** X3. The connection settings are fixed at construction: no sequence of
    methods and life-cycle events changes the dialog handle, the host or
    the port of an instance. *)
Theorem connection_settings_never_change
        (ops : list operation) (w : world) :
  dialog (self (run ops w)) = dialog (self w) /\
  host (self (run ops w)) = host (self w) /\
  port (self (run ops w)) = port (self w).
Proof.
  revert w. induction ops as [|o ops IH]; intros w; simpl.
  - repeat split.
  - destruct (IH (snd (exec o w))) as (Hd & Hh & Hp).
    destruct (exec_keeps_connection o w) as (Hd' & Hh' & Hp').
    repeat split; congruence.
Qed.

Lemma exec_volume (o : operation) (w : world) :
  volume (self (snd (exec o w)))
  = match o with
    | op_saveVolume v => v
    | _ => volume (self w)
    end.
Proof.
  destruct o as [| | | | | | | | | | | | | | | | | | | | |[| |]];
    unfold_methods; simpl; cases; reflexivity.
Qed.

(** X4. The stored normal volume is written by [saveVolume] and by
    nothing else: after any other method or event it is what it was,
    whatever the client answered. *)
Theorem volume_written_only_by_saveVolume (o : operation) (w : world) :
  volume (self (snd (exec o w)))
  = match o with
    | op_saveVolume v => v
    | _ => volume (self w)
    end.
Proof.
  destruct o as [| | | | | | | | | | | | | | | | | | | | |[| |]];
    unfold_methods; simpl; cases; reflexivity.
Qed.

Lemma run_app (ops ops' : list operation) (w : world) :
  run (ops ++ ops') w = run ops' (run ops w).
Proof.
  revert w. induction ops as [|o ops IH]; intros w; simpl;
    [reflexivity | apply IH].
Qed.

Lemma run_keeps_volume (ops : list operation) (w : world) :
  (forall v, ~ In (op_saveVolume v) ops) ->
  volume (self (run ops w)) = volume (self w).
Proof.
  revert w. induction ops as [|o ops IH]; intros w H; simpl.
  - reflexivity.
  - rewrite IH.
    + rewrite exec_volume.
      destruct o; try reflexivity.
      exfalso. apply (H v). left. reflexivity.
    + intros v Hin. apply (H v). right. exact Hin.
Qed.

(** X5. The last [saveVolume] wins.  After [saveVolume v], however many
    other operations follow and whatever happened before, the stored
    normal volume is [v], and [setVolumeToNormal] issues a set-volume call
    with [v]. *)
Theorem latest_saveVolume_wins
        (before after : list operation) (v : Z) (w : world) :
  (forall v', ~ In (op_saveVolume v') after) ->
  let w' := run (before ++ op_saveVolume v :: after) w in
  volume (self w') = v /\
  issued setVolumeToNormal w' = [SetVolume v].
Proof.
  intros H. cbv zeta.
  assert (V : volume (self (run (before ++ op_saveVolume v :: after) w)) = v).
  { rewrite run_app. simpl. rewrite run_keeps_volume by exact H.
    apply (exec_volume (op_saveVolume v)). }
  split; [exact V|].
  unfold issued. rewrite setVolumeToNormal_call, (call_world (SetVolume _)), V.
  simpl. apply skipn_app_length.
Qed.

(** X6. The readiness flag follows the life-cycle events and nothing
    else: it is [true] after a [ready] event (or a direct [__init]),
    [false] after [socket-error] or [socket-end], and no other method
    touches it, a method whose calls the client rejects included. *)
Theorem readiness_follows_events (o : operation) (w : world) :
  isReady (self (snd (exec o w)))
  = match o with
    | op_emit ready => true
    | op___init => true
    | op_emit socket_error => false
    | op_emit socket_end => false
    | _ => isReady (self w)
    end.
Proof.
  destruct o as [| | | | | | | | | | | | | | | | | | | | |[| |]];
    unfold_methods; simpl; cases; reflexivity.
Qed.

(** X7. The class never reconnects and never registers a listener again:
    no method and no event issues a connect call, only
    [__startMonitoring] registers listeners (three of them), and the
    [socket-error] and [socket-end] listeners issue no call at all. *)
Theorem never_reconnects (o : operation) (w : world) :
  count isConnectTCP (issued (exec o) w) = 0%nat /\
  count isAddListener (issued (exec o) w)
  = match o with
    | op___startMonitoring => 3%nat
    | _ => 0%nat
    end /\
  issued (listener socket_error) w = [] /\
  issued (listener socket_end) w = [].
Proof.
  split; [|split; [|split]].
  - destruct o as [| | | | | | | | | | | | | | | | | | | | |[| |]];
      unfold issued; unfold_methods; simpl; cases; added; reflexivity.
  - destruct o as [| | | | | | | | | | | | | | | | | | | | |[| |]];
      unfold issued; unfold_methods; simpl; cases; added; reflexivity.
  - unfold issued; unfold_methods; simpl. apply skipn_all.
  - unfold issued; unfold_methods; simpl. apply skipn_all.
Qed.

(** X8. The six playback methods ([previous], [next], [play], [pause],
    [stop], [clear]) each issue their one command and nothing else, settle
    exactly as the client settles that command, change no stored field and
    log nothing. *)
Theorem playback_methods_pass_through (w : world) :
  let through :=
    fun (method : Promise unit) (c : command)
        (settles : answer MPDError unit) =>
      issued method w = [c] /\
      fst (method w) = settled settles /\
      fields_of (self (snd (method w))) = fields_of (self w) /\
      logs (snd (method w)) = logs w in
  let m := player (self w) in
  through previous Previous (fst (respond Previous m)) /\
  through next Next (fst (respond Next m)) /\
  through play Play (fst (respond Play m)) /\
  through pause Pause (fst (respond Pause m)) /\
  through stop Stop (fst (respond Stop m)) /\
  through clear Clear (fst (respond Clear m)).
Proof.
  cbv zeta. unfold previous, next, play, pause, stop, clear, issued, call.
  destruct (respond Previous (player (self w))) as [r1 m1].
  destruct (respond Next (player (self w))) as [r2 m2].
  destruct (respond Play (player (self w))) as [r3 m3].
  destruct (respond Pause (player (self w))) as [r4 m4].
  destruct (respond Stop (player (self w))) as [r5 m5].
  destruct (respond Clear (player (self w))) as [r6 m6].
  simpl. rewrite !skipn_app_length. repeat split.
Qed.

(** X9. When the status query itself is rejected, [getPlayingInfo] is
    rejected with the error of the client, unchanged; the current song is
    not queried and nothing is logged. *)
Theorem getPlayingInfo_status_error (w : world) (e : MPDError) :
  fst (respond Status (player (self w))) = Failed e ->
  fst (getPlayingInfo w) = Rejected (ClientError e) /\
  issued getPlayingInfo w = [Status] /\
  logs (snd (getPlayingInfo w)) = logs w.
Proof.
  unfold getPlayingInfo, __getStatus, __getCurrentSong, then_, logger, issued.
  unfold call.
  destruct (respond Status (player (self w))) as [[res|e'] m]; simpl;
    intros H; [discriminate|].
  injection H as ->. rewrite skipn_app_length. repeat split.
Qed.

(** X10. [getPlayingInfo] changes no stored field, and writes one debug
    line, the status object, exactly when the status query is
    fulfilled. *)
Theorem getPlayingInfo_frame (w : world) :
  fields_of (self (snd (getPlayingInfo w))) = fields_of (self w) /\
  logs (snd (getPlayingInfo w))
  = match fst (respond Status (player (self w))) with
    | Done res => logs w ++ [LogDebugStatus res]
    | Failed _ => logs w
    end.
Proof.
  unfold getPlayingInfo, __getStatus, __getCurrentSong, then_, logger, throw.
  unfold call.
  destruct (respond Status (player (self w))) as [[res|e] m]; simpl;
    [|split; reflexivity].
  destruct (String.eqb (state res) "stop" || String.eqb (state res) "pause");
    simpl; [split; reflexivity|].
  destruct (respond CurrentSong m) as [r m']; simpl. split; reflexivity.
Qed.

(** X11. When the search itself is rejected, [createPlayListIfPossible]
    is rejected with the error of the client, unchanged (it is not turned
    into [notFound], unlike in [loadPlaylistIfPossible]); the queue is not
    cleared and nothing is added. *)
Theorem createPlayListIfPossible_search_error
        (song album artist : option string) (w : world) (e : MPDError) :
  let crit := search_criteria song album artist in
  let create := createPlayListIfPossible song album artist in
  fst (respond (Search crit) (player (self w))) = Failed e ->
  fst (create w) = Rejected (ClientError e) /\
  issued create w = [Search crit].
Proof.
  cbv zeta. unfold createPlayListIfPossible, __checkExistance, __createPlayList.
  set (crit := search_criteria song album artist).
  unfold clear, then_, issued, call.
  destruct (respond (Search crit) (player (self w))) as [[res|e'] m]; simpl;
    intros H; [discriminate|].
  injection H as ->. rewrite skipn_app_length. split; reflexivity.
Qed.

(** X12. For [createPlayListIfPossible] a missing argument and an empty
    string are the same request: the method behaves identically on
    [undefined] and on [""], in each of the three positions. *)
Theorem createPlayListIfPossible_absent_is_empty
        (song album artist : option string) (w : world) :
  let blank := fun x : option string =>
                 Some match x with Some s => s | None => "" end in
  createPlayListIfPossible song album artist w
  = createPlayListIfPossible (blank song) (blank album) (blank artist) w.
Proof.
  cbv zeta. unfold createPlayListIfPossible, __checkExistance, __createPlayList.
  rewrite !search_criteria_spelled. reflexivity.
Qed.

(** X13. The queue is cleared only after a check that found something:
    [createPlayListIfPossible] calls clear once when the search answers
    with a non-empty list and never otherwise; [loadPlaylistIfPossible]
    calls clear once when the listing answers with a non-empty list and
    never otherwise. *)
Theorem queue_cleared_only_when_found
        (song album artist : option string) (playlist : string) (w : world) :
  count isClear (issued (createPlayListIfPossible song album artist) w)
  = match fst (respond (Search (search_criteria song album artist))
                       (player (self w))) with
    | Done (_ :: _) => 1%nat
    | _ => 0%nat
    end /\
  count isClear (issued (loadPlaylistIfPossible playlist) w)
  = match fst (respond (ListPlaylist (playlist_file playlist))
                       (player (self w))) with
    | Done (_ :: _) => 1%nat
    | _ => 0%nat
    end.
Proof.
  split.
  - unfold createPlayListIfPossible, __checkExistance, __createPlayList.
    set (crit := search_criteria song album artist).
    unfold clear, then_, issued, call.
    destruct (respond (Search crit) (player (self w))) as [[[|s res]|e] m];
      simpl; try (added; reflexivity).
    destruct (respond Clear m) as [[[]|e] m1]; simpl;
      [destruct (respond (SearchAdd crit) m1) as [r m2]; simpl|];
      added; reflexivity.
  - unfold loadPlaylistIfPossible, __checkExistancePlaylist,
      __loadSongFromSavedPlaylist.
    set (file := playlist_file playlist).
    unfold clear, then_, catch_, logger, throw, issued, call.
    destruct (respond (ListPlaylist file) (player (self w)))
      as [[[|s res]|e] m];
      simpl; try (added; reflexivity).
    destruct (respond Clear m) as [[[]|e] m1]; simpl;
      [destruct (respond (Load file) m1) as [r m2]; simpl|];
      added; reflexivity.
Qed.

(** X14. [loadPlaylistIfPossible] sees the name only through its
    lowercase form: two names that [toLowerCase] maps to the same string
    are looked up, and loaded, as the same file, so the method issues the
    same calls, settles the same way and leaves the same state on
    both. *)
Theorem loadPlaylistIfPossible_ignores_case (a b : string) (w : world) :
  toLowerCase a = toLowerCase b ->
  loadPlaylistIfPossible a w = loadPlaylistIfPossible b w.
Proof.
  intros H.
  unfold loadPlaylistIfPossible, __checkExistancePlaylist,
    __loadSongFromSavedPlaylist, playlist_file.
  rewrite H. reflexivity.
Qed.

End Adapter.

Arguments mkWorld {Dialog MPC StatusInfo PlaylistItem} _ _ _.
Arguments self {Dialog MPC StatusInfo PlaylistItem} _.
Arguments calls {Dialog MPC StatusInfo PlaylistItem} _.
Arguments logs {Dialog MPC StatusInfo PlaylistItem} _.
Arguments player {Dialog MPC} _.
Arguments host {Dialog MPC} _.
Arguments port {Dialog MPC} _.
Arguments volume {Dialog MPC} _.
Arguments volumeSilence {Dialog MPC} _.
Arguments enableRandom {Dialog MPC} _.
Arguments isReady {Dialog MPC} _.
Arguments issued {Dialog MPC StatusInfo PlaylistItem MPDError A} p w.
Arguments constructor {Dialog MPC StatusInfo Song PlaylistItem MPDError}
  new_MPC respond d options.
Arguments listener {Dialog MPC StatusInfo Song PlaylistItem MPDError}
  respond ev w.
Arguments getPlayingInfo {Dialog MPC StatusInfo Song PlaylistItem MPDError}
  state respond w.
Arguments saveVolume {Dialog MPC StatusInfo Song PlaylistItem MPDError}
  respond v w.
Arguments setVolumeToNormal {Dialog MPC StatusInfo Song PlaylistItem MPDError}
  respond w.
Arguments setVolumeToSilence {Dialog MPC StatusInfo Song PlaylistItem MPDError}
  respond w.
Arguments createPlayListIfPossible
  {Dialog MPC StatusInfo Song PlaylistItem MPDError}
  respond song album artist w.
Arguments loadPlaylistIfPossible
  {Dialog MPC StatusInfo Song PlaylistItem MPDError}
  toLowerCase respond playlist w.

(** ** The properties on scripted clients *)

(** An instance built with no override, connected to a scripted
    client. *)
Definition fresh (m : Mock.client) : world unit Mock.client string string :=
  constructor m Mock.respond tt (mkOptions None None None None).

Example constructor_calls :
  calls (fresh Mock.healthy)
  = [ AddListener ready; AddListener socket_error; AddListener socket_end;
      ConnectTCP "localhost" 6600 ].
Proof. reflexivity. Qed.

Example playlist_file_my_mix :
  playlist_file Mock.toLowerCase "My Mix" = "my mix.m3u".
Proof. reflexivity. Qed.

(** C1: overrides that are all truthy are all taken. *)
Lemma constructor_effective_settings_witness :
  let options := mkOptions (Some "mpd.local") (Some 6601%Z) (Some 55%Z)
                           (Some true) in
  let p := self (constructor Mock.healthy Mock.respond tt options) in
  host p = "mpd.local" /\ port p = 6601%Z /\ volume p = 55%Z /\
  enableRandom p = true.
Proof.
  cbv zeta.
  destruct (constructor_effective_settings
              unit Mock.client string string string string
              Mock.healthy Mock.respond tt
              (mkOptions (Some "mpd.local") (Some 6601%Z) (Some 55%Z)
                         (Some true)))
    as (Hh & _ & Hp & _ & Hv & _ & Hr & _).
  split; [|split; [|split]].
  - apply (Hh "mpd.local"); [reflexivity | discriminate].
  - apply (Hp 6601%Z); [reflexivity | discriminate].
  - apply (Hv 55%Z); [reflexivity | discriminate].
  - apply (Hr true); reflexivity.
Defined.

(** C1 as stated fails: a host override that is present but empty, and a
    port override that is present but 0, are not the effective host and
    port. *)
Lemma constructor_falsy_override_counterexample :
  let options := mkOptions (Some "") (Some 0%Z) None None in
  let p := self (constructor Mock.healthy Mock.respond tt options) in
  opt_host options = Some "" /\ host p = "localhost" /\ host p <> "" /\
  opt_port options = Some 0%Z /\ port p = 6600%Z /\ port p <> 0%Z.
Proof.
  cbv zeta. repeat split; discriminate.
Qed.

(** The remaining falsy overrides, for the record: a volume override of 0
    and a random override of [false] are dropped too, so the random flag
    is [true] after every construction. *)
Example constructor_drops_zero_volume_and_false_random :
  let options := mkOptions None None (Some 0%Z) (Some false) in
  let p := self (constructor Mock.healthy Mock.respond tt options) in
  volume p = 80%Z /\ enableRandom p = true.
Proof. split; reflexivity. Qed.

(** C2 on a scripted client: the message thrown on [socket-error]. *)
Example socket_error_message :
  listener Mock.respond socket_error (fresh Mock.healthy)
  = (Rejected (Error "mpdConnectionFaild"),
     mkWorld (self (fresh Mock.healthy)) (calls (fresh Mock.healthy)) []).
Proof. reflexivity. Qed.

(** C3 as stated fails: the search finds a song, clear is called once and
    is rejected, and search-add is never called. *)
Lemma createPlayList_clear_rejected_counterexample :
  let w := fresh Mock.clear_refused in
  let crit := [("Title", "X"); ("Album", ""); ("Artist", "")] in
  let create := createPlayListIfPossible Mock.respond (Some "X") None None in
  fst (Mock.respond (Search crit) (player (self w))) = Done ["Blue in Green"] /\
  issued create w = [Search crit; Clear] /\
  count isClear (issued create w) = 1%nat /\
  count isSearchAdd (issued create w) = 0%nat /\
  fst (create w) = Rejected (ClientError "permission denied").
Proof.
  cbv zeta. repeat split.
Qed.

(** C3, amended, on scripted clients: an empty search, and a search that
    finds a song with clear fulfilled. *)
Lemma createPlayListIfPossible_spec_witness :
  let crit := [("Title", "X"); ("Album", ""); ("Artist", "")] in
  let create := createPlayListIfPossible Mock.respond (Some "X") (Some "") None in
  (fst (create (fresh Mock.empty)) = Rejected (Error "notFound") /\
   issued create (fresh Mock.empty) = [Search crit] /\
   count isClear (issued create (fresh Mock.empty)) = 0%nat /\
   count isSearchAdd (issued create (fresh Mock.empty)) = 0%nat) /\
  (issued create (fresh Mock.healthy) = [Search crit; Clear; SearchAdd crit] /\
   count isClear (issued create (fresh Mock.healthy)) = 1%nat /\
   count isSearchAdd (issued create (fresh Mock.healthy)) = 1%nat /\
   fst (create (fresh Mock.healthy)) = Fulfilled tt).
Proof.
  cbv zeta. split.
  - destruct (createPlayListIfPossible_spec
                unit Mock.client string string string string Mock.respond
                (Some "X") (Some "") None (fresh Mock.empty))
      as (_ & H & _).
    apply H. reflexivity.
  - destruct (createPlayListIfPossible_spec
                unit Mock.client string string string string Mock.respond
                (Some "X") (Some "") None (fresh Mock.healthy))
      as (_ & _ & H & _).
    apply (H ["Blue in Green"]); [reflexivity | discriminate | reflexivity].
Defined.

(** C4 on scripted clients: ["My Mix"] is looked up as [my mix.m3u]; an
    empty listing, a refused clear, and a full run. *)
Lemma loadPlaylistIfPossible_spec_witness :
  let load := loadPlaylistIfPossible Mock.toLowerCase Mock.respond "My Mix" in
  (fst (load (fresh Mock.empty)) = Rejected (Error "notFound") /\
   issued load (fresh Mock.empty) = [ListPlaylist "my mix.m3u"] /\
   count isLoad (issued load (fresh Mock.empty)) = 0%nat) /\
  (fst (load (fresh Mock.clear_refused)) = Rejected (Error "notFound") /\
   issued load (fresh Mock.clear_refused)
   = [ListPlaylist "my mix.m3u"; Clear] /\
   count isLoad (issued load (fresh Mock.clear_refused)) = 0%nat) /\
  issued load (fresh Mock.healthy)
  = [ListPlaylist "my mix.m3u"; Clear; Load "my mix.m3u"].
Proof.
  cbv zeta. split; [|split].
  - destruct (loadPlaylistIfPossible_spec
                unit Mock.client string string string string
                Mock.toLowerCase Mock.respond
                "My Mix" (fresh Mock.empty))
      as (_ & H & _).
    apply H. left. reflexivity.
  - destruct (loadPlaylistIfPossible_spec
                unit Mock.client string string string string
                Mock.toLowerCase Mock.respond
                "My Mix" (fresh Mock.clear_refused))
      as (_ & _ & H & _).
    apply (H ["So What"] "permission denied");
      [reflexivity | discriminate | reflexivity].
  - destruct (loadPlaylistIfPossible_spec
                unit Mock.client string string string string
                Mock.toLowerCase Mock.respond
                "My Mix" (fresh Mock.healthy))
      as (_ & _ & _ & H).
    apply (H ["So What"]); [reflexivity | discriminate | reflexivity].
Defined.

(** C5 on scripted clients: a paused server and a playing one. *)
Lemma getPlayingInfo_spec_witness :
  (fst (getPlayingInfo Mock.state Mock.respond (fresh Mock.paused))
   = Rejected (Error "nothingPlaying") /\
   issued (getPlayingInfo Mock.state Mock.respond) (fresh Mock.paused)
   = [Status]) /\
  (issued (getPlayingInfo Mock.state Mock.respond) (fresh Mock.healthy)
   = [Status; CurrentSong] /\
   fst (getPlayingInfo Mock.state Mock.respond (fresh Mock.healthy))
   = Fulfilled "Blue in Green").
Proof.
  split.
  - destruct (getPlayingInfo_spec
                unit Mock.client string string string string
                Mock.state Mock.respond (fresh Mock.paused))
      as (Hiff & H & _).
    split.
    + apply Hiff. exists "pause". split; [reflexivity | right; reflexivity].
    + apply (H "pause"); [reflexivity | right; reflexivity].
  - destruct (getPlayingInfo_spec
                unit Mock.client string string string string
                Mock.state Mock.respond (fresh Mock.healthy))
      as (_ & _ & H).
    apply (H "play"); [reflexivity | discriminate | discriminate].
Defined.

(** C10 on scripted clients: the error of a failed load reaches the
    caller; the error of a refused clear does not. *)
Lemma load_error_not_coerced_witness :
  fst (loadPlaylistIfPossible Mock.toLowerCase Mock.respond "My Mix" (fresh Mock.load_refused))
  = Rejected (ClientError "No such file") /\
  fst (loadPlaylistIfPossible Mock.toLowerCase Mock.respond "My Mix" (fresh Mock.clear_refused))
  = Rejected (Error "notFound").
Proof.
  split.
  - destruct (load_error_not_coerced
                unit Mock.client string string string string
                Mock.toLowerCase Mock.respond
                "My Mix" (fresh Mock.load_refused))
      as (H & _).
    apply (H ["So What"] "No such file");
      [reflexivity | discriminate | reflexivity | reflexivity].
  - destruct (load_error_not_coerced
                unit Mock.client string string string string
                Mock.toLowerCase Mock.respond
                "My Mix" (fresh Mock.clear_refused))
      as (_ & _ & _ & H).
    apply (H ["So What"] "permission denied");
      [reflexivity | discriminate | reflexivity].
Defined.

(** C7 on a scripted client: [saveVolume 55], then
    [setVolumeToNormal]. *)
Example saveVolume_55 :
  let w1 := snd (saveVolume Mock.respond 55%Z (fresh Mock.healthy)) in
  volume (self w1) = 55%Z /\
  issued (saveVolume Mock.respond 55%Z) (fresh Mock.healthy) = [SetVolume 55] /\
  issued (setVolumeToNormal Mock.respond) w1 = [SetVolume 55].
Proof. repeat split. Qed.

Arguments run {Dialog MPC StatusInfo Song PlaylistItem MPDError}
  state toLowerCase respond ops w.

(** X5 on a scripted client: of two [saveVolume] calls the later one is
    what the instance keeps and what [setVolumeToNormal] applies. *)
Lemma latest_saveVolume_wins_witness :
  let w' :=
    run Mock.state Mock.toLowerCase Mock.respond
        [ op_saveVolume 30; op_emit socket_error; op_saveVolume 55;
          op_setVolumeToSilence; op_getPlayingInfo ]
        (fresh Mock.healthy) in
  volume (self w') = 55%Z /\
  issued (setVolumeToNormal Mock.respond) w' = [SetVolume 55].
Proof.
  cbv zeta.
  refine (latest_saveVolume_wins
            unit Mock.client string string string string
            Mock.state Mock.toLowerCase Mock.respond
            [op_saveVolume 30; op_emit socket_error]
            [op_setVolumeToSilence; op_getPlayingInfo]
            55%Z (fresh Mock.healthy) _).
  intros v' [H|[H|[]]]; discriminate.
Defined.

(** X9 on a scripted client whose status query fails. *)
Lemma getPlayingInfo_status_error_witness :
  fst (getPlayingInfo Mock.state Mock.respond (fresh Mock.queries_refused))
  = Rejected (ClientError "Connection closed") /\
  issued (getPlayingInfo Mock.state Mock.respond) (fresh Mock.queries_refused)
  = [Status] /\
  logs (snd (getPlayingInfo Mock.state Mock.respond
                            (fresh Mock.queries_refused)))
  = [].
Proof.
  refine (getPlayingInfo_status_error
            unit Mock.client string string string string
            Mock.state Mock.respond (fresh Mock.queries_refused)
            "Connection closed" _).
  reflexivity.
Defined.

(** X11 on a scripted client whose search fails. *)
Lemma createPlayListIfPossible_search_error_witness :
  let create := createPlayListIfPossible Mock.respond (Some "X") None None in
  fst (create (fresh Mock.queries_refused))
  = Rejected (ClientError "Connection closed") /\
  issued create (fresh Mock.queries_refused)
  = [Search [("Title", "X"); ("Album", ""); ("Artist", "")]].
Proof.
  cbv zeta.
  refine (createPlayListIfPossible_search_error
            unit Mock.client string string string string Mock.respond
            (Some "X") None None (fresh Mock.queries_refused)
            "Connection closed" _).
  reflexivity.
Defined.

(** X14 on a scripted client: ["My Mix"] and ["MY MIX"]. *)
Lemma loadPlaylistIfPossible_ignores_case_witness :
  Mock.toLowerCase "My Mix" = Mock.toLowerCase "MY MIX" /\
  loadPlaylistIfPossible Mock.toLowerCase Mock.respond "My Mix"
                         (fresh Mock.healthy)
  = loadPlaylistIfPossible Mock.toLowerCase Mock.respond "MY MIX"
                           (fresh Mock.healthy).
Proof.
  split; [reflexivity|].
  refine (loadPlaylistIfPossible_ignores_case
            unit Mock.client string string string string
            Mock.toLowerCase Mock.respond
            "My Mix" "MY MIX" (fresh Mock.healthy) _).
  reflexivity.
Defined.
